(** * DenoGenesis meta-documentation: the utilities of [mod.ts]

    A shallow embedding of the three exported functions of [mod.ts]
    ([checkUnixCompliance], [validateCompliance], [createADR]) and the
    properties the specification states about them.

    [validateCompliance] probes its argument dynamically: it tests
    [checklist.unixPhilosophy] and the flags of each sub-record for
    truthiness.  Its argument is therefore modelled as a run-time value
    (an object is a finite map from property names to values), property
    reads are the fallible operation they are in JavaScript (reading a
    property of [undefined] or [null] throws a [TypeError]), and the
    functions live in a small error monad.  The results, which the code
    builds as object literals of a statically known shape, are records. *)

From stdpp Require Import base option list strings gmap.

Open Scope string_scope.

(** ** Run-time values *)

Module Js.

#[local] Set Warnings "-register-all".

(** The values a checklist can be built from: a flag is a boolean, a
    sub-record an object, and what is left out is [undefined].  An
    object holds its own properties; a property that is not there reads
    as [undefined]. *)
Inductive value : Type :=
  | VUndefined
  | VNull
  | VBool (b : bool)
  | VString (s : string)
  | VObject (props : gmap string value).

(** JavaScript's ToBoolean on these values: [undefined], [null], [false]
    and the empty string are falsy, everything else (every object
    included) is truthy. *)
Definition truthy (v : value) : bool :=
  match v with
  | VUndefined | VNull => false
  | VBool b => b
  | VString s => negb (String.eqb s "")
  | VObject _ => true
  end.

(** Whether a property of [v] can be read at all. *)
Definition readable (v : value) : bool :=
  match v with
  | VUndefined | VNull => false
  | _ => true
  end.

(** The value of property [k] of a readable value: the stored value for
    an object that has the property, [undefined] otherwise (the flag
    names of a checklist are no properties of a primitive's wrapper). *)
Definition prop (v : value) (k : string) : value :=
  match v with
  | VObject props => default VUndefined (props !! k)
  | _ => VUndefined
  end.

(** Outcome of running a function: a result or a thrown exception. *)
Inductive exn : Type :=
  | TypeError.

Inductive js (A : Type) : Type :=
  | Ok (a : A)
  | Throw (e : exn).
Arguments Ok {A} a.
Arguments Throw {A} e.

#[export] Instance js_ret : MRet js := @Ok.
#[export] Instance js_bind : MBind js := fun A B f m =>
  match m with
  | Ok a => f a
  | Throw e => Throw e
  end.

(** [v.k]: throws when [v] is [undefined] or [null]. *)
Definition get (v : value) (k : string) : js value :=
  if readable v then Ok (prop v k) else Throw TypeError.

(** An object literal [{k1: v1, ..., kn: vn}] whose keys are distinct. *)
Definition object (fields : list (string * value)) : value :=
  VObject (list_to_map fields).

End Js.
Import Js.

(** ** Results of [mod.ts] *)

(** The return type of [validateCompliance]. *)
Record ValidationResult : Type := mkValidationResult {
  valid : bool;
  violations : list string
}.

(** [violations.push(msg)] *)
Definition push (violations : list string) (msg : string) : list string :=
  violations ++ [msg].

(** One line of [validateCompliance]:
    [if (!o.flag) violations.push(msg);] *)
Definition check (o : value) (flag msg : string) (violations : list string)
  : js (list string) :=
  v ← get o flag;
  mret (if negb (truthy v) then push violations msg else violations).

(** [validateCompliance], mod.ts lines 111-150. *)
Definition validateCompliance (checklist : value) : js ValidationResult :=
  let violations : list string := [] in
  (* Check Unix Philosophy compliance *)
  c ← get checklist "unixPhilosophy";
  violations ←
    (if truthy c then
       up ← get checklist "unixPhilosophy";
       violations ← check up "singleResponsibility" "Module lacks single responsibility" violations;
       violations ← check up "composable" "Module is not composable" violations;
       violations ← check up "textBasedConfig" "Configuration is not text-based" violations;
       violations ← check up "explicitDependencies" "Dependencies are not explicit" violations;
       violations ← check up "minimalOutput" "Output is not minimal by default" violations;
       mret violations
     else mret violations);
  (* Check security compliance *)
  c ← get checklist "security";
  violations ←
    (if truthy c then
       sec ← get checklist "security";
       violations ← check sec "explicitPermissions" "Permissions are not explicit" violations;
       violations ← check sec "inputValidation" "Input validation is missing" violations;
       violations ← check sec "parameterizedQueries" "Queries are not parameterized" violations;
       violations ← check sec "multiTenantIsolation" "Multi-tenant isolation is missing" violations;
       violations ← check sec "defenseInDepth" "Defense-in-depth not implemented" violations;
       mret violations
     else mret violations);
  (* Check architecture compliance *)
  c ← get checklist "architecture";
  violations ←
    (if truthy c then
       arch ← get checklist "architecture";
       violations ← check arch "followsHubSpoke" "Doesn't follow hub-and-spoke pattern" violations;
       violations ← check arch "adrCreated" "ADR not created for architectural change" violations;
       violations ← check arch "testsIncluded" "Tests not included" violations;
       violations ← check arch "documentationUpdated" "Documentation not updated" violations;
       violations ← check arch "performanceConsidered" "Performance not considered" violations;
       mret violations
     else mret violations);
  mret {| valid := Nat.eqb (length violations) 0; violations := violations |}.

(** ** The checklist as the interface declares it *)

(** The flags of [ComplianceChecklist] (mod.ts lines 66-88), category by
    category and flag by flag in the order of the declaration, each with
    the message [validateCompliance] pushes for it. *)
Definition unixPhilosophy_flags : list (string * string) :=
  [ ("singleResponsibility", "Module lacks single responsibility");
    ("composable", "Module is not composable");
    ("textBasedConfig", "Configuration is not text-based");
    ("explicitDependencies", "Dependencies are not explicit");
    ("minimalOutput", "Output is not minimal by default") ].

Definition security_flags : list (string * string) :=
  [ ("explicitPermissions", "Permissions are not explicit");
    ("inputValidation", "Input validation is missing");
    ("parameterizedQueries", "Queries are not parameterized");
    ("multiTenantIsolation", "Multi-tenant isolation is missing");
    ("defenseInDepth", "Defense-in-depth not implemented") ].

Definition architecture_flags : list (string * string) :=
  [ ("followsHubSpoke", "Doesn't follow hub-and-spoke pattern");
    ("adrCreated", "ADR not created for architectural change");
    ("testsIncluded", "Tests not included");
    ("documentationUpdated", "Documentation not updated");
    ("performanceConsidered", "Performance not considered") ].

Definition categories : list (string * list (string * string)) :=
  [ ("unixPhilosophy", unixPhilosophy_flags);
    ("security", security_flags);
    ("architecture", architecture_flags) ].

(** Every violation message there is, in declaration order. *)
Definition all_messages : list string :=
  flat_map (fun cat => map snd (snd cat)) categories.

(** The violations of one sub-record as the specification words them:
    its flags in declared order, one message for every falsy flag. *)
Definition flag_violations (sub : value) (flags : list (string * string))
  : list string :=
  flat_map (fun fm => if truthy (prop sub (fst fm)) then [] else [snd fm]) flags.

(** The violations of a checklist as the specification words them: the
    categories in order, a sub-record that is not there contributing
    nothing. *)
Definition spec_violations (checklist : value) : list string :=
  flat_map (fun cat =>
              let sub := prop checklist (fst cat) in
              if truthy sub then flag_violations sub (snd cat) else [])
           categories.

(** The declared flags as one table of (category, flag, message). *)
Definition entries : list (string * string * string) :=
  flat_map (fun cat => map (fun fm => (fst cat, fst fm, snd fm)) (snd cat))
           categories.

Definition declared (cat flag msg : string) : Prop :=
  (cat, flag, msg) ∈ entries.

(** Whether a declared flag is violated in [checklist]: its sub-record
    is there and the flag is falsy. *)
Definition violated (checklist : value) (cat flag : string) : bool :=
  truthy (prop checklist cat) && negb (truthy (prop (prop checklist cat) flag)).

(** *** Shapes of checklists *)

Definition is_bool (v : value) : bool :=
  match v with VBool _ => true | _ => false end.

Definition is_undefined (v : value) : bool :=
  match v with VUndefined => true | _ => false end.

Definition is_true (v : value) : bool :=
  match v with VBool true => true | _ => false end.

(** An object each of whose three sub-records is either not there or an
    object whose declared flags all satisfy [flag_ok]. *)
Definition checklist_shape (flag_ok : value → bool) (v : value) : bool :=
  match v with
  | VObject _ =>
      forallb (fun cat =>
                 match prop v (fst cat) with
                 | VUndefined => true
                 | VObject _ as sub =>
                     forallb (fun fm => flag_ok (prop sub (fst fm))) (snd cat)
                 | _ => false
                 end)
              categories
  | _ => false
  end.

(** [Partial<ComplianceChecklist>] as TypeScript types it: a sub-record
    that is there has every flag, and every flag is a boolean. *)
Definition well_typed_checklist : value → bool := checklist_shape is_bool.

(** The wider shape the specification describes: within a supplied
    sub-record a flag may be missing as well. *)
Definition partial_checklist : value → bool :=
  checklist_shape (fun v => is_bool v || is_undefined v).

(** Every present sub-record has all of its flags set to [true]. *)
Definition all_present_true : value → bool := checklist_shape is_true.

(** The flag [flag] of category [cat] is present in the checklist and
    set to [false]. *)
Definition flag_is_false (checklist : value) (cat flag : string) : Prop :=
  ∃ m, prop checklist cat = VObject m ∧ m !! flag = Some (VBool false).

(** *** Sample checklists *)

(** A checklist whose security sub-record is supplied without any flag. *)
Definition security_without_flags : value :=
  object [("security", object [])].

(** A checklist whose security sub-record has every flag [true] except
    [explicitPermissions]. *)
Definition permissions_not_explicit : value :=
  object [("security",
           object [("explicitPermissions", VBool false);
                   ("inputValidation", VBool true);
                   ("parameterizedQueries", VBool true);
                   ("multiTenantIsolation", VBool true);
                   ("defenseInDepth", VBool true)])].

(** A checklist with one sub-record, all of whose flags are [true]. *)
Definition security_all_true : value :=
  object [("security",
           object [("explicitPermissions", VBool true);
                   ("inputValidation", VBool true);
                   ("parameterizedQueries", VBool true);
                   ("multiTenantIsolation", VBool true);
                   ("defenseInDepth", VBool true)])].

(** A checklist written with its sub-records in the reverse of the
    declared order, each with one flag [false]. *)
Definition one_false_each : value :=
  object [("architecture",
           object [("performanceConsidered", VBool true);
                   ("documentationUpdated", VBool true);
                   ("testsIncluded", VBool false);
                   ("adrCreated", VBool true);
                   ("followsHubSpoke", VBool true)]);
          ("security",
           object [("explicitPermissions", VBool true);
                   ("inputValidation", VBool true);
                   ("parameterizedQueries", VBool true);
                   ("multiTenantIsolation", VBool true);
                   ("defenseInDepth", VBool false)]);
          ("unixPhilosophy",
           object [("singleResponsibility", VBool true);
                   ("composable", VBool false);
                   ("textBasedConfig", VBool true);
                   ("explicitDependencies", VBool true);
                   ("minimalOutput", VBool true)])].

(** *** The claim about missing flags, as the specification words it *)

(** A flag that is missing from a supplied sub-record never produces a
    violation. *)
Definition absent_flag_not_evaluated : Prop :=
  ∀ (checklist : value) (cat flag msg : string) (m : gmap string value)
    (r : ValidationResult),
    partial_checklist checklist = true →
    declared cat flag msg →
    prop checklist cat = VObject m →
    m !! flag = None →
    validateCompliance checklist = Ok r →
    msg ∉ violations r.

(** ** Architectural decision records *)

Module ADR.

Inductive status_t : Type :=
  | PROPOSED
  | ACCEPTED
  | DEPRECATED
  | SUPERSEDED.

Record consequences_t : Type := mkConsequences {
  positive : list string;
  negative : list string;
  mitigation : option (list string)
}.

(** The interface [ADR], mod.ts lines 36-61; an optional field that is
    not set is [None]. *)
Record t : Type := mkADR {
  id : string;
  title : string;
  status : status_t;
  context : string;
  decision : string;
  rationale : string;
  alternatives : list string;
  consequences : consequences_t;
  related : list string;
  reviewDate : option string
}.

(** Structural equality of two records, field by field. *)
Definition strings_equal (xs ys : list string) : bool :=
  bool_decide (length xs = length ys) && forallb (fun p => String.eqb (fst p) (snd p)) (zip xs ys).

Definition status_equal (s1 s2 : status_t) : bool :=
  match s1, s2 with
  | PROPOSED, PROPOSED | ACCEPTED, ACCEPTED
  | DEPRECATED, DEPRECATED | SUPERSEDED, SUPERSEDED => true
  | _, _ => false
  end.

Definition option_equal {A} (eq : A → A → bool) (o1 o2 : option A) : bool :=
  match o1, o2 with
  | Some x, Some y => eq x y
  | None, None => true
  | _, _ => false
  end.

Definition consequences_equal (c1 c2 : consequences_t) : bool :=
  strings_equal (positive c1) (positive c2)
  && strings_equal (negative c1) (negative c2)
  && option_equal strings_equal (mitigation c1) (mitigation c2).

Definition deep_equal (a b : t) : bool :=
  String.eqb (id a) (id b)
  && String.eqb (title a) (title b)
  && status_equal (status a) (status b)
  && String.eqb (context a) (context b)
  && String.eqb (decision a) (decision b)
  && String.eqb (rationale a) (rationale b)
  && strings_equal (alternatives a) (alternatives b)
  && consequences_equal (consequences a) (consequences b)
  && strings_equal (related a) (related b)
  && option_equal String.eqb (reviewDate a) (reviewDate b).

End ADR.

(** [createADR], mod.ts lines 155-173. *)
Definition createADR (id title : string) : js ADR.t :=
  mret {| ADR.id := id;
          ADR.title := title;
          ADR.status := ADR.PROPOSED;
          ADR.context := "";
          ADR.decision := "";
          ADR.rationale := "";
          ADR.alternatives := [];
          ADR.consequences :=
            {| ADR.positive := []; ADR.negative := []; ADR.mitigation := None |};
          ADR.related := [];
          ADR.reviewDate := None |}.

(** ** Unix-philosophy principles *)

(** [Partial<UnixPrinciples>], mod.ts lines 16-31: every flag optional. *)
Record PartialUnixPrinciples : Type := mkPartialUnixPrinciples {
  doOneThingWell : option bool;
  composable : option bool;
  textBased : option bool;
  explicitNotMagic : option bool;
  minimalOutput : option bool;
  securityFirst : option bool;
  leverageExisting : option bool
}.

(** [checkUnixCompliance], mod.ts lines 93-106: the argument is not
    looked at. *)
Definition checkUnixCompliance (module : value) : js PartialUnixPrinciples :=
  mret {| doOneThingWell := Some true;
          composable := Some true;
          textBased := Some true;
          explicitNotMagic := Some true;
          minimalOutput := Some true;
          securityFirst := Some true;
          leverageExisting := Some true |}.

(** ** Names and samples for the properties of edited checklists *)

(** The names of the three sub-records. *)
Definition category_names : list string := map fst categories.


(** A checklist whose security sub-record is [null]. *)
Definition security_null : value :=
  object [("security", VNull)].

(** A checklist whose security sub-record is the boolean [true]. *)
Definition security_primitive : value :=
  object [("security", VBool true)].

(** The properties of a checklist that supplies an empty security
    sub-record. *)
Definition security_empty_props : gmap string value :=
  <["security" := VObject ∅]> ∅.

(** ** [validateCompliance] computes the specified sequence *)

Lemma truthy_readable (v : value) : truthy v = true → readable v = true.
Proof. by destruct v. Qed.

Lemma get_readable (v : value) (k : string) :
  readable v = true → get v k = Ok (prop v k).
Proof. unfold get. by intros ->. Qed.

Lemma check_readable (o : value) (flag msg : string) (vs : list string) :
  readable o = true →
  check o flag msg vs = Ok (vs ++ if truthy (prop o flag) then [] else [msg])%list.
Proof.
  intros Hr. unfold check. rewrite (get_readable _ _ Hr). simpl.
  destruct (truthy (prop o flag)); simpl; unfold push; by rewrite ?app_nil_r.
Qed.

Lemma validateCompliance_readable (checklist : value) :
  readable checklist = true →
  validateCompliance checklist =
    Ok {| valid := Nat.eqb (length (spec_violations checklist)) 0;
          violations := spec_violations checklist |}.
Proof.
  intros Hr. unfold validateCompliance, spec_violations, flag_violations.
  rewrite !(get_readable checklist _ Hr). simpl.
  destruct (truthy (prop checklist "unixPhilosophy")) eqn:Hup;
  destruct (truthy (prop checklist "security")) eqn:Hsec;
  destruct (truthy (prop checklist "architecture")) eqn:Harch;
  simpl;
  repeat match goal with
  | H : truthy ?o = true |- context [check ?o ?f ?m ?vs] =>
      rewrite (check_readable o f m vs (truthy_readable o H)); simpl
  end;
  rewrite <- ?app_assoc, ?app_nil_r; simpl; reflexivity.
Qed.

(** ** The specified sequence: membership, order, multiplicity *)

Section SpecViolations.

Variable checklist : value.

Lemma flag_violations_sublist (sub : value) (flags : list (string * string)) :
  flag_violations sub flags `sublist_of` map snd flags.
Proof.
  induction flags as [|[f msg] flags IH]; simpl.
  - constructor.
  - destruct (truthy (prop sub f)); simpl; by constructor.
Qed.

Lemma spec_violations_sublist :
  spec_violations checklist `sublist_of` all_messages.
Proof.
  unfold spec_violations, all_messages.
  induction categories as [|[cat flags] cats IH]; simpl.
  - constructor.
  - apply sublist_app; [|exact IH].
    destruct (truthy (prop checklist cat)).
    + apply flag_violations_sublist.
    + apply sublist_nil_l.
Qed.

Lemma elem_of_flag_violations (sub : value) (flags : list (string * string))
      (msg : string) :
  msg ∈ flag_violations sub flags ↔
  ∃ f, (f, msg) ∈ flags ∧ truthy (prop sub f) = false.
Proof.
  unfold flag_violations. rewrite list_elem_of_In, in_flat_map. split.
  - intros ([f m] & Hin & Hmsg). simpl in Hmsg.
    destruct (truthy (prop sub f)) eqn:Ht; simpl in Hmsg; [done|].
    destruct Hmsg as [<-|[]]. exists f. by rewrite list_elem_of_In.
  - intros (f & Hin & Ht). exists (f, msg). simpl.
    rewrite Ht. split; [by apply list_elem_of_In | by left].
Qed.

Lemma elem_of_entries (cat flag msg : string) :
  declared cat flag msg ↔
  ∃ flags, (cat, flags) ∈ categories ∧ (flag, msg) ∈ flags.
Proof.
  unfold declared, entries. rewrite list_elem_of_In, in_flat_map. split.
  - intros ([c flags] & Hc & Hin). simpl in Hin.
    apply in_map_iff in Hin as ([f m] & Heq & Hin). simpl in Heq.
    injection Heq as -> -> ->. exists flags.
    by rewrite !list_elem_of_In.
  - intros (flags & Hc & Hin). exists (cat, flags).
    split; [by apply list_elem_of_In|]. simpl.
    apply in_map_iff. exists (flag, msg). split; [done|].
    by apply list_elem_of_In.
Qed.

Lemma elem_of_spec_violations (msg : string) :
  msg ∈ spec_violations checklist ↔
  ∃ cat flag, declared cat flag msg ∧ violated checklist cat flag = true.
Proof.
  unfold spec_violations, violated.
  rewrite list_elem_of_In, in_flat_map. split.
  - intros ([cat flags] & Hc & Hin). simpl in Hin.
    destruct (truthy (prop checklist cat)) eqn:Hsub; [|done].
    apply list_elem_of_In, elem_of_flag_violations in Hin as (f & Hin & Hf).
    exists cat, f. rewrite Hsub, Hf. split; [|done].
    apply elem_of_entries. exists flags. by rewrite list_elem_of_In.
  - intros (cat & f & Hd & Hv).
    apply elem_of_entries in Hd as (flags & Hc & Hin).
    apply andb_true_iff in Hv as [Hsub Hf]. apply negb_true_iff in Hf.
    exists (cat, flags). split; [by apply list_elem_of_In|]. simpl.
    rewrite Hsub. apply list_elem_of_In, elem_of_flag_violations. eauto.
Qed.

End SpecViolations.

(** No message is used for two flags. *)
Lemma all_messages_NoDup : NoDup all_messages.
Proof. apply (bool_decide_unpack _). by vm_compute. Qed.

Lemma declared_message_inj (cat cat' flag flag' msg : string) :
  declared cat flag msg → declared cat' flag' msg → cat = cat' ∧ flag = flag'.
Proof.
  assert (Hall : Forall (fun e => Forall (fun e' =>
            e.2 = e'.2 → e = e') entries) entries).
  { apply (bool_decide_unpack _). by vm_compute. }
  intros H1 H2. rewrite Forall_forall in Hall.
  specialize (Hall _ H1). rewrite Forall_forall in Hall.
  specialize (Hall _ H2 eq_refl). by injection Hall as -> ->.
Qed.

Lemma elem_of_spec_violations_declared (checklist : value) (cat flag msg : string) :
  declared cat flag msg →
  msg ∈ spec_violations checklist ↔ violated checklist cat flag = true.
Proof.
  intros Hd. rewrite elem_of_spec_violations. split.
  - intros (cat' & flag' & Hd' & Hv).
    by destruct (declared_message_inj _ _ _ _ _ Hd Hd') as [-> ->].
  - intros Hv. eauto.
Qed.

Lemma spec_violations_NoDup (checklist : value) :
  NoDup (spec_violations checklist).
Proof.
  eapply sublist_NoDup; [apply all_messages_NoDup | apply spec_violations_sublist].
Qed.

Lemma spec_violations_count (checklist : value) (msg : string) :
  msg ∈ spec_violations checklist →
  count_occ String.string_dec (spec_violations checklist) msg = 1.
Proof.
  intros Hin. apply NoDup_count_occ'.
  - apply NoDup_ListNoDup, spec_violations_NoDup.
  - by apply list_elem_of_In.
Qed.

(** ** Shapes *)

Lemma checklist_shape_readable (flag_ok : value → bool) (checklist : value) :
  checklist_shape flag_ok checklist = true → readable checklist = true.
Proof. by destruct checklist. Qed.

(** What a shape says about one declared flag. *)
Lemma checklist_shape_declared (flag_ok : value → bool) (checklist : value)
      (cat flag msg : string) :
  checklist_shape flag_ok checklist = true →
  declared cat flag msg →
  prop checklist cat = VUndefined ∨
  (∃ m, prop checklist cat = VObject m) ∧
  flag_ok (prop (prop checklist cat) flag) = true.
Proof.
  intros Hshape (flags & Hc & Hf)%elem_of_entries.
  destruct checklist as [| | | |props]; try done.
  unfold checklist_shape in Hshape. rewrite forallb_forall in Hshape.
  apply list_elem_of_In, Hshape in Hc. simpl fst in Hc; simpl snd in Hc.
  destruct (prop (VObject props) cat) as [| | | |m] eqn:Hsub; try done.
  - by left.
  - right. split; [by exists m|].
    rewrite forallb_forall in Hc. by apply list_elem_of_In, Hc in Hf.
Qed.

Lemma checklist_shape_mono (ok1 ok2 : value → bool) (checklist : value) :
  (∀ v, ok1 v = true → ok2 v = true) →
  checklist_shape ok1 checklist = true → checklist_shape ok2 checklist = true.
Proof.
  intros Hok. destruct checklist as [| | | |props]; try done.
  unfold checklist_shape. rewrite !forallb_forall. intros Hshape cat Hc.
  specialize (Hshape cat Hc).
  destruct (prop (VObject props) cat.1); try done.
  rewrite forallb_forall in Hshape |- *. auto.
Qed.

Lemma well_typed_checklist_partial (checklist : value) :
  well_typed_checklist checklist = true → partial_checklist checklist = true.
Proof. apply checklist_shape_mono. by intros v ->. Qed.

Lemma all_present_true_well_typed (checklist : value) :
  all_present_true checklist = true → well_typed_checklist checklist = true.
Proof. apply checklist_shape_mono. by intros [| |[]| |]. Qed.

(** A value that cannot be read makes the function throw: the model's
    failure path is a real one. *)
Example validateCompliance_undefined :
  validateCompliance VUndefined = Throw TypeError.
Proof. reflexivity. Qed.

Example validateCompliance_null :
  validateCompliance VNull = Throw TypeError.
Proof. reflexivity. Qed.

(** The order of the result is that of the checks, not that of the
    checklist's own properties. *)
Example validateCompliance_one_false_each :
  validateCompliance one_false_each =
    Ok {| valid := false;
          violations := ["Module is not composable";
                         "Defense-in-depth not implemented";
                         "Tests not included"] |}.
Proof. reflexivity. Qed.

Lemma validateCompliance_Ok_readable (checklist : value) (r : ValidationResult) :
  validateCompliance checklist = Ok r → readable checklist = true.
Proof. by destruct checklist. Qed.

Lemma length_eqb_0 {A} (l : list A) : Nat.eqb (length l) 0 = true ↔ l = [].
Proof. by destruct l. Qed.

(** ** Properties of [validateCompliance] *)

(** C1, as the specification states it, fails: with the security
    sub-record supplied as the empty object, the absent flag
    [explicitPermissions] produces its violation message. *)
Lemma absent_flag_is_violation : ¬ absent_flag_not_evaluated.
Proof.
  intros Hclaim.
  assert (Hd : declared "security" "explicitPermissions"
                        "Permissions are not explicit").
  { unfold declared. apply (bool_decide_unpack _). by vm_compute. }
  apply (Hclaim security_without_flags _ _ _ ∅
                {| valid := false; violations := map snd security_flags |}
                eq_refl Hd); [reflexivity..|].
  apply (bool_decide_unpack _). by vm_compute.
Qed.

(** C1 (amended): for every partial checklist, the message of a declared
    flag is among the violations exactly when the flag's sub-record is
    supplied and the flag is [false] or reads as [undefined] (a flag
    that is missing from the sub-record does).  So a flag set to [true]
    produces no violation, and a sub-record that is entirely absent
    contributes none. *)
Theorem validateCompliance_flag_violation (checklist : value) :
  partial_checklist checklist = true →
  ∃ r, validateCompliance checklist = Ok r ∧
       ∀ cat flag msg, declared cat flag msg →
         (msg ∈ violations r ↔
          prop checklist cat ≠ VUndefined ∧
          (prop (prop checklist cat) flag = VBool false ∨
           prop (prop checklist cat) flag = VUndefined)).
Proof.
  intros Hshape. eexists. split.
  { apply validateCompliance_readable. by eapply checklist_shape_readable. }
  intros cat flag msg Hd. simpl.
  rewrite (elem_of_spec_violations_declared _ _ _ _ Hd). unfold violated.
  destruct (checklist_shape_declared _ _ _ _ _ Hshape Hd)
    as [Hsub|[[m Hsub] Hflag]].
  - rewrite Hsub. simpl. split; [done | by intros [? _]].
  - destruct (prop (prop checklist cat) flag) as [| |[]| |];
      try discriminate Hflag; rewrite Hsub; simpl;
      (split; [intros ?; first [done | split; [done | auto]]
              | intros [_ [?|?]]; done]).
Qed.

Lemma validateCompliance_flag_violation_witness :
  partial_checklist security_without_flags = true ∧
  ∃ r, validateCompliance security_without_flags = Ok r ∧
       ∀ cat flag msg, declared cat flag msg →
         (msg ∈ violations r ↔
          prop security_without_flags cat ≠ VUndefined ∧
          (prop (prop security_without_flags cat) flag = VBool false ∨
           prop (prop security_without_flags cat) flag = VUndefined)).
Proof.
  split; [reflexivity|].
  apply (validateCompliance_flag_violation security_without_flags).
  reflexivity.
Defined.

(** C2: a checklist in which every present sub-record has all of its
    flags set to [true] validates with [valid = true] and no violation. *)
Theorem validateCompliance_all_true (checklist : value) :
  all_present_true checklist = true →
  validateCompliance checklist = Ok {| valid := true; violations := [] |}.
Proof.
  intros Hshape.
  rewrite validateCompliance_readable by by eapply checklist_shape_readable.
  assert (Hnil : spec_violations checklist = []).
  { apply elem_of_nil_inv. intros msg Hin.
    apply elem_of_spec_violations in Hin as (cat & flag & Hd & Hv).
    apply andb_true_iff in Hv as [Hsub Hf].
    destruct (checklist_shape_declared _ _ _ _ _ Hshape Hd) as [Hu|[_ Hflag]].
    - by rewrite Hu in Hsub.
    - by destruct (prop (prop checklist cat) flag) as [| |[]| |]. }
  by rewrite Hnil.
Qed.

Lemma validateCompliance_all_true_witness :
  all_present_true security_all_true = true ∧
  validateCompliance security_all_true = Ok {| valid := true; violations := [] |}.
Proof.
  split; [reflexivity|].
  apply (validateCompliance_all_true security_all_true). reflexivity.
Defined.

(** C3: when at least one present flag of a checklist is [false], the
    result has [valid = false], and the message of every flag that is
    [false] occurs exactly once among the violations.  In particular a
    security sub-record with only [explicitPermissions] false gives
    exactly the one message "Permissions are not explicit". *)
Theorem validateCompliance_false_flag :
  (∀ (props : gmap string value),
     (∃ cat flag msg, declared cat flag msg ∧ flag_is_false (VObject props) cat flag) →
     ∃ r, validateCompliance (VObject props) = Ok r ∧
          valid r = false ∧
          ∀ cat flag msg, declared cat flag msg →
            flag_is_false (VObject props) cat flag →
            count_occ String.string_dec (violations r) msg = 1) ∧
  validateCompliance permissions_not_explicit =
    Ok {| valid := false; violations := ["Permissions are not explicit"] |}.
Proof.
  split; [|reflexivity].
  intros props Hex. eexists. split; [by apply validateCompliance_readable|].
  simpl.
  assert (Hin : ∀ cat flag msg, declared cat flag msg →
            flag_is_false (VObject props) cat flag →
            msg ∈ spec_violations (VObject props)).
  { intros cat flag msg Hd (m & Hsub & Hflag).
    apply (elem_of_spec_violations_declared _ _ _ _ Hd). unfold violated.
    rewrite Hsub. simpl. by rewrite Hflag. }
  split.
  - destruct Hex as (cat & flag & msg & Hd & Hf).
    specialize (Hin _ _ _ Hd Hf).
    destruct (spec_violations (VObject props)); [|done].
    by apply not_elem_of_nil in Hin.
  - intros cat flag msg Hd Hf. apply spec_violations_count. eauto.
Qed.

Lemma validateCompliance_false_flag_witness :
  ∃ r, validateCompliance permissions_not_explicit = Ok r ∧
       valid r = false ∧
       count_occ String.string_dec (violations r) "Permissions are not explicit" = 1.
Proof.
  assert (Hd : declared "security" "explicitPermissions"
                        "Permissions are not explicit").
  { unfold declared. apply (bool_decide_unpack _). vm_compute. exact I. }
  assert (Hf : flag_is_false permissions_not_explicit
                             "security" "explicitPermissions").
  { eexists. split; reflexivity. }
  destruct (proj1 validateCompliance_false_flag _
              (ex_intro _ _ (ex_intro _ _ (ex_intro _ _ (conj Hd Hf)))))
    as (r & Hr & Hv & Hc).
  exists r. split; [exact Hr|]. split; [exact Hv|]. exact (Hc _ _ _ Hd Hf).
Defined.

(** C4: the violations are listed in a fixed order: the sequence is the
    specified one (categories in the order Unix philosophy, security,
    architecture; within a category the flags in declaration order), so
    it is a subsequence of the declared messages, without repetition;
    and any two results for the same checklist list the same sequence. *)
Theorem validateCompliance_order (props : gmap string value) :
  ∃ r, validateCompliance (VObject props) = Ok r ∧
       violations r = spec_violations (VObject props) ∧
       violations r `sublist_of` all_messages ∧
       NoDup (violations r) ∧
       ∀ r', validateCompliance (VObject props) = Ok r' →
             violations r' = violations r.
Proof.
  eexists. split; [by apply validateCompliance_readable|]. simpl.
  split; [done|]. split; [apply spec_violations_sublist|].
  split; [apply spec_violations_NoDup|].
  intros r'. rewrite validateCompliance_readable by done.
  by intros [= <-].
Qed.

(** C5: in every result of [validateCompliance], [valid] is [true] if
    and only if [violations] is empty. *)
Theorem validateCompliance_valid_iff (checklist : value) (r : ValidationResult) :
  validateCompliance checklist = Ok r →
  valid r = true ↔ violations r = [].
Proof.
  intros Hr. pose proof (validateCompliance_Ok_readable _ _ Hr) as Hread.
  rewrite (validateCompliance_readable _ Hread) in Hr.
  injection Hr as <-. simpl. apply length_eqb_0.
Qed.

Lemma validateCompliance_valid_iff_witness :
  validateCompliance permissions_not_explicit =
    Ok {| valid := false; violations := ["Permissions are not explicit"] |} ∧
  (false = true ↔ ["Permissions are not explicit"] = []).
Proof.
  split; [reflexivity|].
  apply (validateCompliance_valid_iff permissions_not_explicit
           {| valid := false; violations := ["Permissions are not explicit"] |}).
  reflexivity.
Defined.

(** C6: the empty checklist validates to [{valid: true, violations: []}]. *)
Theorem validateCompliance_empty :
  validateCompliance (object []) = Ok {| valid := true; violations := [] |}.
Proof. reflexivity. Qed.

(** ** Properties of [createADR] *)

Lemma strings_equal_eq (xs ys : list string) :
  ADR.strings_equal xs ys = true ↔ xs = ys.
Proof.
  unfold ADR.strings_equal. rewrite andb_true_iff, bool_decide_eq_true.
  split.
  - revert ys. induction xs as [|x xs IH]; intros [|y ys] [Hlen Hall];
      try done.
    simpl in Hlen, Hall. apply andb_true_iff in Hall as [Hxy Hall].
    apply String.eqb_eq in Hxy as ->. f_equal. apply IH. split; [lia|done].
  - intros <-. split; [done|].
    induction xs as [|x xs IH]; [done|]. simpl.
    by rewrite String.eqb_refl.
Qed.

Lemma option_equal_eq {A} (eq : A → A → bool) (o1 o2 : option A) :
  (∀ x y, eq x y = true ↔ x = y) →
  ADR.option_equal eq o1 o2 = true ↔ o1 = o2.
Proof.
  intros Heq. destruct o1 as [x|], o2 as [y|]; simpl; try done.
  rewrite Heq. split; [by intros -> | by intros [= ->]].
Qed.

Lemma status_equal_eq (s1 s2 : ADR.status_t) :
  ADR.status_equal s1 s2 = true ↔ s1 = s2.
Proof. by destruct s1, s2. Qed.

Lemma consequences_equal_eq (c1 c2 : ADR.consequences_t) :
  ADR.consequences_equal c1 c2 = true ↔ c1 = c2.
Proof.
  unfold ADR.consequences_equal. destruct c1 as [p1 n1 m1], c2 as [p2 n2 m2].
  simpl. rewrite !andb_true_iff, !strings_equal_eq,
    (option_equal_eq _ _ _ strings_equal_eq).
  split; [by intros [[-> ->] ->] | by intros [= -> -> ->]].
Qed.

(** Structural equality is equality. *)
Lemma deep_equal_eq (a b : ADR.t) : ADR.deep_equal a b = true ↔ a = b.
Proof.
  unfold ADR.deep_equal. destruct a, b. simpl.
  rewrite !andb_true_iff, !String.eqb_eq, !strings_equal_eq,
    status_equal_eq, consequences_equal_eq,
    (option_equal_eq _ _ _ String.eqb_eq).
  split.
  - by intros [[[[[[[[[-> ->] ->] ->] ->] ->] ->] ->] ->] ->].
  - by intros [= -> -> -> -> -> -> -> -> -> ->].
Qed.

(** C7: [createADR(id, title)] returns a record with the given [id] and
    [title], status [PROPOSED], empty [context], [decision] and
    [rationale], empty [alternatives], [related],
    [consequences.positive] and [consequences.negative], and no
    [reviewDate] (nor [consequences.mitigation]); the empty string is an
    argument like any other. *)
Theorem createADR_fields (id title : string) :
  ∃ adr, createADR id title = Ok adr ∧
         ADR.id adr = id ∧
         ADR.title adr = title ∧
         ADR.status adr = ADR.PROPOSED ∧
         ADR.context adr = "" ∧
         ADR.decision adr = "" ∧
         ADR.rationale adr = "" ∧
         ADR.alternatives adr = [] ∧
         ADR.related adr = [] ∧
         ADR.positive (ADR.consequences adr) = [] ∧
         ADR.negative (ADR.consequences adr) = [] ∧
         ADR.mitigation (ADR.consequences adr) = None ∧
         ADR.reviewDate adr = None.
Proof. eexists. split; [reflexivity|]. simpl. repeat split. Qed.

(** C8: two calls of [createADR] with the same arguments return
    deep-equal records. *)
Theorem createADR_deterministic (id title : string) :
  ∃ a, createADR id title = Ok a ∧
       ∀ b, createADR id title = Ok b → ADR.deep_equal a b = true.
Proof.
  eexists. split; [reflexivity|].
  intros b [= <-]. by apply deep_equal_eq.
Qed.

(** ** Totality *)

(** C9: on every partial checklist, hence on every well-typed one,
    [validateCompliance] returns a result and does not throw; and
    [createADR] returns a record for every pair of strings. *)
Theorem operations_total :
  (∀ checklist, partial_checklist checklist = true →
     ∃ r, validateCompliance checklist = Ok r) ∧
  (∀ checklist, well_typed_checklist checklist = true →
     ∃ r, validateCompliance checklist = Ok r) ∧
  (∀ id title, ∃ adr, createADR id title = Ok adr).
Proof.
  assert (Hp : ∀ checklist, partial_checklist checklist = true →
                 ∃ r, validateCompliance checklist = Ok r).
  { intros checklist Hshape. eexists.
    apply validateCompliance_readable. by eapply checklist_shape_readable. }
  split; [exact Hp|]. split.
  - intros checklist Hwt. by apply Hp, well_typed_checklist_partial.
  - intros id title. by eexists.
Qed.

Lemma operations_total_witness :
  well_typed_checklist permissions_not_explicit = true ∧
  ∃ r, validateCompliance permissions_not_explicit = Ok r.
Proof.
  split; [reflexivity|].
  apply (proj1 (proj2 operations_total) permissions_not_explicit).
  reflexivity.
Defined.

(** ** Properties of [checkUnixCompliance] *)

(** C10: [checkUnixCompliance] is constant: whatever the module, it
    returns the record with all seven flags set to [true]. *)
Theorem checkUnixCompliance_constant :
  (∀ module : value,
     checkUnixCompliance module =
       Ok {| doOneThingWell := Some true;
             composable := Some true;
             textBased := Some true;
             explicitNotMagic := Some true;
             minimalOutput := Some true;
             securityFirst := Some true;
             leverageExisting := Some true |}) ∧
  (∀ module1 module2 : value,
     checkUnixCompliance module1 = checkUnixCompliance module2).
Proof. split; reflexivity. Qed.

(** ** The specified sequence as a filter of the declared table *)

Lemma category_violations_filter (checklist : value) (cat : string)
      (flags : list (string * string)) :
  (if truthy (prop checklist cat)
   then flag_violations (prop checklist cat) flags else []) =
  map snd (List.filter (fun e => violated checklist e.1.1 e.1.2)
             (map (fun fm => (cat, fm.1, fm.2)) flags)).
Proof.
  unfold violated, flag_violations.
  induction flags as [|[f m] flags IH]; simpl.
  - by destruct (truthy (prop checklist cat)).
  - destruct (truthy (prop checklist cat)) eqn:Hsub; simpl; [|exact IH].
    destruct (truthy (prop (prop checklist cat) f)); simpl; by rewrite IH.
Qed.

Lemma spec_violations_filter (checklist : value) :
  spec_violations checklist =
  map snd (List.filter (fun e => violated checklist e.1.1 e.1.2) entries).
Proof.
  unfold spec_violations, entries.
  induction categories as [|[cat flags] cats IH]; simpl; [done|].
  by rewrite List.filter_app, map_app, <- IH, <- category_violations_filter.
Qed.

Lemma filter_sublist_impl {A} (p q : A → bool) (l : list A) :
  (∀ x, In x l → p x = true → q x = true) →
  List.filter p l `sublist_of` List.filter q l.
Proof.
  induction l as [|x l IH]; intros Himp; simpl; [constructor|].
  assert (IH' : List.filter p l `sublist_of` List.filter q l).
  { apply IH. intros y Hy. apply Himp. by right. }
  destruct (p x) eqn:Hp.
  - rewrite (Himp x (or_introl eq_refl) Hp). by constructor.
  - destruct (q x); [by constructor | done].
Qed.

Lemma map_sublist {A B} (f : A → B) (l1 l2 : list A) :
  l1 `sublist_of` l2 → map f l1 `sublist_of` map f l2.
Proof. induction 1; simpl; by constructor. Qed.

Lemma filter_map_snd_filter {A} (p : A * string → bool) (q : string → bool)
      (l : list (A * string)) :
  List.filter q (map snd (List.filter p l)) =
  map snd (List.filter (fun e => p e && q e.2) l).
Proof.
  induction l as [|e l IH]; simpl; [done|].
  destruct (p e); simpl; [|exact IH].
  destruct (q e.2); simpl; by rewrite IH.
Qed.


Lemma spec_violations_mono (c c' : value) :
  (∀ cat flag msg, declared cat flag msg →
     violated c' cat flag = true → violated c cat flag = true) →
  spec_violations c' `sublist_of` spec_violations c.
Proof.
  intros Himp. rewrite !spec_violations_filter.
  apply map_sublist, filter_sublist_impl.
  intros [[cat flag] msg] Hin. simpl.
  apply (Himp cat flag msg). by apply list_elem_of_In.
Qed.

Lemma validateCompliance_object (props : gmap string value) :
  validateCompliance (VObject props) =
    Ok {| valid := Nat.eqb (length (spec_violations (VObject props))) 0;
          violations := spec_violations (VObject props) |}.
Proof. by apply validateCompliance_readable. Qed.


(** A category and a flag name have one message. *)
Lemma declared_flag_fun (cat flag msg msg' : string) :
  declared cat flag msg → declared cat flag msg' → msg = msg'.
Proof.
  assert (Hall : Forall (fun e => Forall (fun e' =>
            e.1 = e'.1 → e = e') entries) entries).
  { apply (bool_decide_unpack _). by vm_compute. }
  intros H1 H2. rewrite Forall_forall in Hall.
  specialize (Hall _ H1). rewrite Forall_forall in Hall.
  specialize (Hall _ H2 eq_refl). by injection Hall.
Qed.

Lemma declared_category_name (cat flag msg : string) :
  declared cat flag msg → cat ∈ category_names.
Proof.
  intros (flags & Hc & _)%elem_of_entries.
  apply list_elem_of_In, in_map_iff. exists (cat, flags).
  split; [done | by apply list_elem_of_In].
Qed.


(** *** Reading the violated flags of an edited checklist *)

Section EditedChecklist.

Variable props : gmap string value.

Lemma violated_insert_other (k cat flag : string) (v : value) :
  cat ≠ k →
  violated (VObject (<[k:=v]> props)) cat flag = violated (VObject props) cat flag.
Proof.
  intros Hne. unfold violated, prop. by rewrite lookup_insert_ne.
Qed.

Lemma violated_delete_other (k cat flag : string) :
  cat ≠ k →
  violated (VObject (delete k props)) cat flag = violated (VObject props) cat flag.
Proof.
  intros Hne. unfold violated, prop. by rewrite lookup_delete_ne.
Qed.

Lemma violated_delete_eq (cat flag : string) :
  violated (VObject (delete cat props)) cat flag = false.
Proof. unfold violated, prop. by rewrite lookup_delete_eq. Qed.

Lemma violated_set_flag_eq (cat flag : string) (m : gmap string value) (v : value) :
  violated (VObject (<[cat := VObject (<[flag:=v]> m)]> props)) cat flag =
  negb (truthy v).
Proof.
  unfold violated, prop. rewrite lookup_insert_eq. simpl.
  by rewrite lookup_insert_eq.
Qed.

Lemma violated_set_flag_other (cat flag cat' flag' : string)
      (m : gmap string value) (v : value) :
  props !! cat = Some (VObject m) →
  (cat', flag') ≠ (cat, flag) →
  violated (VObject (<[cat := VObject (<[flag:=v]> m)]> props)) cat' flag' =
  violated (VObject props) cat' flag'.
Proof.
  intros Hsub Hne. destruct (decide (cat' = cat)) as [->|Hcat].
  - unfold violated, prop. rewrite lookup_insert_eq, Hsub. simpl.
    rewrite lookup_insert_ne; [done|]. intros ->. by apply Hne.
  - by apply violated_insert_other.
Qed.

End EditedChecklist.

(** ** Error and edge behaviour of [validateCompliance] *)


(** X2: a sub-record with a falsy value ([null], [false], the empty
    string, as well as a missing one) is skipped: the checklist
    validates without throwing and none of that category's messages is
    reported. *)
Theorem validateCompliance_falsy_subrecord (props : gmap string value)
        (cat flag msg : string) :
  declared cat flag msg →
  truthy (prop (VObject props) cat) = false →
  ∃ r, validateCompliance (VObject props) = Ok r ∧ msg ∉ violations r.
Proof.
  intros Hd Hsub. eexists. split; [apply validateCompliance_object|].
  cbn [valid violations].
  rewrite (elem_of_spec_violations_declared _ _ _ _ Hd). unfold violated.
  by rewrite Hsub.
Qed.

Lemma validateCompliance_falsy_subrecord_witness :
  ∃ r, validateCompliance security_null = Ok r ∧
       "Permissions are not explicit" ∉ violations r.
Proof.
  apply (validateCompliance_falsy_subrecord
           (list_to_map [("security", VNull)])
           "security" "explicitPermissions" "Permissions are not explicit").
  - unfold declared. apply (bool_decide_unpack _). vm_compute. exact I.
  - reflexivity.
Defined.

(** X3: a sub-record that is truthy without being an object (the
    boolean [true], a non-empty string) has none of the flags, so every
    message of its category is reported. *)
Theorem validateCompliance_primitive_subrecord (props : gmap string value)
        (cat flag msg : string) :
  declared cat flag msg →
  truthy (prop (VObject props) cat) = true →
  (∀ m, prop (VObject props) cat ≠ VObject m) →
  ∃ r, validateCompliance (VObject props) = Ok r ∧ msg ∈ violations r.
Proof.
  intros Hd Hsub Hprim. eexists. split; [apply validateCompliance_object|].
  cbn [valid violations]. rewrite (elem_of_spec_violations_declared _ _ _ _ Hd).
  unfold violated. rewrite Hsub.
  destruct (prop (VObject props) cat) as [| | | |m]; try reflexivity.
  by destruct (Hprim m).
Qed.

Lemma validateCompliance_primitive_subrecord_witness :
  ∃ r, validateCompliance security_primitive = Ok r ∧
       "Input validation is missing" ∈ violations r.
Proof.
  apply (validateCompliance_primitive_subrecord
           (list_to_map [("security", VBool true)])
           "security" "inputValidation" "Input validation is missing").
  - unfold declared. apply (bool_decide_unpack _). vm_compute. exact I.
  - reflexivity.
  - intros m. vm_compute. discriminate.
Defined.

(** X4: the result is valid exactly when every declared flag of every
    truthy sub-record is truthy; flags are tested for truthiness, not
    for being [true]. *)
Theorem validateCompliance_valid_truthy (props : gmap string value) :
  ∃ r, validateCompliance (VObject props) = Ok r ∧
       (valid r = true ↔
        ∀ cat flag msg, declared cat flag msg →
          truthy (prop (VObject props) cat) = true →
          truthy (prop (prop (VObject props) cat) flag) = true).
Proof.
  eexists. split; [apply validateCompliance_object|].
  cbn [valid violations].
  rewrite length_eqb_0. split.
  - intros Hnil cat flag msg Hd Hsub.
    destruct (truthy (prop (prop (VObject props) cat) flag)) eqn:Hf; [done|].
    assert (Hin : msg ∈ spec_violations (VObject props)).
    { apply (elem_of_spec_violations_declared _ _ _ _ Hd).
      unfold violated. by rewrite Hsub, Hf. }
    rewrite Hnil in Hin. by apply not_elem_of_nil in Hin.
  - intros Hall. apply elem_of_nil_inv. intros msg Hin.
    apply elem_of_spec_violations in Hin as (cat & flag & Hd & Hv).
    apply andb_true_iff in Hv as [Hsub Hf].
    rewrite (Hall _ _ _ Hd Hsub) in Hf. discriminate Hf.
Qed.

(** X5: the result lists one message for each declared flag that is
    violated, so at most fifteen. *)
Theorem validateCompliance_length (props : gmap string value) :
  ∃ r, validateCompliance (VObject props) = Ok r ∧
       length (violations r) =
         length (List.filter (fun e => violated (VObject props) e.1.1 e.1.2)
                             entries) ∧
       (length (violations r) ≤ 15)%nat.
Proof.
  eexists. split; [apply validateCompliance_object|].
  cbn [valid violations]. split.
  - by rewrite spec_violations_filter, length_map.
  - apply (sublist_length _ all_messages), spec_violations_sublist.
Qed.

(** ** [validateCompliance] on edited and merged checklists *)





(** X8: giving a declared flag of a supplied sub-record a new value
    changes nothing but that flag's message: the message is reported
    exactly when the new value is falsy, and all other messages are
    reported as before, in the same order. *)
Theorem validateCompliance_set_flag (props m : gmap string value)
        (cat flag msg : string) (v : value) :
  props !! cat = Some (VObject m) →
  declared cat flag msg →
  ∃ r r',
    validateCompliance (VObject props) = Ok r ∧
    validateCompliance (VObject (<[cat := VObject (<[flag:=v]> m)]> props)) = Ok r' ∧
    (msg ∈ violations r' ↔ truthy v = false) ∧
    List.filter (fun x => negb (String.eqb x msg)) (violations r') =
    List.filter (fun x => negb (String.eqb x msg)) (violations r).
Proof.
  intros Hsub Hd. do 2 eexists.
  split; [apply validateCompliance_object|].
  split; [apply validateCompliance_object|].
  cbn [valid violations]. split.
  - rewrite (elem_of_spec_violations_declared _ _ _ _ Hd).
    rewrite violated_set_flag_eq. apply negb_true_iff.
  - rewrite !spec_violations_filter, !filter_map_snd_filter. f_equal.
    apply filter_ext_in. intros [[cat' flag'] msg'] Hin. cbn [fst snd].
    destruct (String.eqb msg' msg) eqn:Hmsg; simpl.
    + by rewrite !andb_false_r.
    + f_equal. apply violated_set_flag_other; [done|].
      intros [= -> ->]. apply list_elem_of_In in Hin.
      rewrite (declared_flag_fun _ _ _ _ Hin Hd), String.eqb_refl in Hmsg.
      discriminate Hmsg.
Qed.

Lemma validateCompliance_set_flag_witness :
  ∃ r r',
    validateCompliance (VObject security_empty_props) = Ok r ∧
    validateCompliance
      (VObject (<["security" := VObject (<["inputValidation" := VBool true]> ∅)]>
                  security_empty_props)) = Ok r' ∧
    ("Input validation is missing" ∈ violations r' ↔ truthy (VBool true) = false) ∧
    List.filter (fun x => negb (String.eqb x "Input validation is missing"))
                (violations r') =
    List.filter (fun x => negb (String.eqb x "Input validation is missing"))
                (violations r).
Proof.
  apply (validateCompliance_set_flag security_empty_props ∅
           "security" "inputValidation" "Input validation is missing"
           (VBool true)).
  - reflexivity.
  - unfold declared. apply (bool_decide_unpack _). vm_compute. exact I.
Defined.

(** X9: leaving a sub-record out removes the messages of its category
    and nothing else: what is still reported is a subsequence of what
    was reported, and a message is still reported exactly when it was
    reported and belongs to another category. *)
Theorem validateCompliance_delete_category (props : gmap string value)
        (cat : string) :
  ∃ r r',
    validateCompliance (VObject props) = Ok r ∧
    validateCompliance (VObject (delete cat props)) = Ok r' ∧
    violations r' `sublist_of` violations r ∧
    ∀ cat' flag msg, declared cat' flag msg →
      (msg ∈ violations r' ↔ cat' ≠ cat ∧ msg ∈ violations r).
Proof.
  do 2 eexists.
  split; [apply validateCompliance_object|].
  split; [apply validateCompliance_object|].
  cbn [valid violations]. split.
  - apply spec_violations_mono. intros cat' flag msg _.
    destruct (decide (cat' = cat)) as [->|Hne].
    + by rewrite violated_delete_eq.
    + by rewrite violated_delete_other.
  - intros cat' flag msg Hd.
    rewrite !(elem_of_spec_violations_declared _ _ _ _ Hd).
    destruct (decide (cat' = cat)) as [->|Hne].
    + rewrite violated_delete_eq. split; [done | by intros [? _]].
    + rewrite violated_delete_other by done. split; [done | by intros [_ ?]].
Qed.

(** X10: two checklists that supply different sub-records can be
    validated separately: for the merged checklist a message is reported
    exactly when it is reported for one of the two, and the merged
    checklist is valid exactly when both are. *)
Theorem validateCompliance_union (props1 props2 : gmap string value) :
  (∀ cat, cat ∈ category_names → props1 !! cat = None ∨ props2 !! cat = None) →
  ∃ r r1 r2,
    validateCompliance (VObject (props1 ∪ props2)) = Ok r ∧
    validateCompliance (VObject props1) = Ok r1 ∧
    validateCompliance (VObject props2) = Ok r2 ∧
    (∀ msg, msg ∈ violations r ↔ msg ∈ violations r1 ∨ msg ∈ violations r2) ∧
    valid r = valid r1 && valid r2.
Proof.
  intros Hdisj. do 3 eexists.
  split; [apply validateCompliance_object|].
  split; [apply validateCompliance_object|].
  split; [apply validateCompliance_object|].
  cbn [valid violations].
  assert (Hv : ∀ cat flag msg, declared cat flag msg →
            violated (VObject (props1 ∪ props2)) cat flag =
            violated (VObject props1) cat flag || violated (VObject props2) cat flag).
  { intros cat flag msg Hd. unfold violated, prop.
    destruct (Hdisj cat (declared_category_name _ _ _ Hd)) as [H1|H2].
    - by rewrite (lookup_union_r _ _ _ H1), H1.
    - rewrite (lookup_union_l _ _ _ H2), H2. simpl. by rewrite orb_false_r. }
  assert (Hin : ∀ msg, msg ∈ spec_violations (VObject (props1 ∪ props2)) ↔
            msg ∈ spec_violations (VObject props1) ∨
            msg ∈ spec_violations (VObject props2)).
  { intros msg. rewrite !elem_of_spec_violations. split.
    - intros (cat & flag & Hd & Hviol). rewrite (Hv _ _ _ Hd) in Hviol.
      apply orb_true_iff in Hviol as [?|?]; [left | right]; eauto.
    - intros [(cat & flag & Hd & Hviol)|(cat & flag & Hd & Hviol)];
        exists cat, flag; (split; [done|]);
        rewrite (Hv _ _ _ Hd), Hviol; [done | apply orb_true_r]. }
  split; [exact Hin|].
  apply eq_true_iff_eq. rewrite andb_true_iff, !length_eqb_0. split.
  - intros Hnil.
    split; apply elem_of_nil_inv; intros msg Hm;
      (assert (Hm' : msg ∈ spec_violations (VObject (props1 ∪ props2)))
         by (apply Hin; auto));
      rewrite Hnil in Hm'; by apply not_elem_of_nil in Hm'.
  - intros [Hnil1 Hnil2]. apply elem_of_nil_inv. intros msg Hm.
    apply Hin in Hm. rewrite Hnil1, Hnil2 in Hm.
    destruct Hm as [Hm|Hm]; by apply not_elem_of_nil in Hm.
Qed.

Lemma validateCompliance_union_witness :
  ∃ r r1 r2,
    validateCompliance
      (VObject (security_empty_props ∪ <["architecture" := VObject ∅]> ∅)) = Ok r ∧
    validateCompliance (VObject security_empty_props) = Ok r1 ∧
    validateCompliance (VObject (<["architecture" := VObject ∅]> ∅)) = Ok r2 ∧
    (∀ msg, msg ∈ violations r ↔ msg ∈ violations r1 ∨ msg ∈ violations r2) ∧
    valid r = valid r1 && valid r2.
Proof.
  apply (validateCompliance_union security_empty_props
           (<["architecture" := VObject ∅]> ∅)).
  apply (proj1 (Forall_forall _ _)).
  repeat constructor; first [left; reflexivity | right; reflexivity].
Defined.

(** ** Well-typed checklists *)

Lemma checklist_shape_strengthen (ok1 ok2 : value → bool) (checklist : value) :
  checklist_shape ok1 checklist = true →
  (∀ cat flag msg, declared cat flag msg →
     truthy (prop checklist cat) = true →
     ok1 (prop (prop checklist cat) flag) = true →
     ok2 (prop (prop checklist cat) flag) = true) →
  checklist_shape ok2 checklist = true.
Proof.
  intros Hshape Hok. destruct checklist as [| | | |props]; try done.
  unfold checklist_shape in *. rewrite forallb_forall in Hshape |- *.
  intros [cat flags] Hc. specialize (Hshape _ Hc). cbn [fst snd] in *.
  destruct (prop (VObject props) cat) as [| | | |m] eqn:Hsub; try done.
  rewrite forallb_forall in Hshape |- *. intros [flag msg] Hf.
  specialize (Hshape _ Hf). cbn [fst] in *.
  rewrite <- Hsub. apply (Hok cat flag msg).
  - apply elem_of_entries. exists flags. by rewrite !list_elem_of_In.
  - by rewrite Hsub.
  - by rewrite Hsub.
Qed.

Lemma all_present_true_no_violation (checklist : value) :
  all_present_true checklist = true → spec_violations checklist = [].
Proof.
  intros Hshape. apply elem_of_nil_inv. intros msg Hin.
  apply elem_of_spec_violations in Hin as (cat & flag & Hd & Hv).
  apply andb_true_iff in Hv as [Hsub Hf].
  destruct (checklist_shape_declared _ _ _ _ _ Hshape Hd) as [Hu|[_ Hflag]].
  - by rewrite Hu in Hsub.
  - by destruct (prop (prop checklist cat) flag) as [| |[]| |].
Qed.

(** X11: a well-typed checklist is valid exactly when every flag of
    every sub-record it supplies is [true]. *)
Theorem validateCompliance_valid_well_typed (checklist : value) :
  well_typed_checklist checklist = true →
  ∃ r, validateCompliance checklist = Ok r ∧
       (valid r = true ↔ all_present_true checklist = true).
Proof.
  intros Hwt. eexists. split.
  { apply validateCompliance_readable. by eapply checklist_shape_readable. }
  cbn [valid violations]. rewrite length_eqb_0. split.
  - intros Hnil. apply (checklist_shape_strengthen _ _ _ Hwt).
    intros cat flag msg Hd Hsub Hbool.
    destruct (prop (prop checklist cat) flag) as [| |[]| |] eqn:Hf; try done.
    assert (Hin : msg ∈ spec_violations checklist).
    { apply (elem_of_spec_violations_declared _ _ _ _ Hd).
      unfold violated. by rewrite Hsub, Hf. }
    rewrite Hnil in Hin. by apply not_elem_of_nil in Hin.
  - apply all_present_true_no_violation.
Qed.

Lemma validateCompliance_valid_well_typed_witness :
  ∃ r, validateCompliance permissions_not_explicit = Ok r ∧
       (valid r = true ↔ all_present_true permissions_not_explicit = true).
Proof.
  apply (validateCompliance_valid_well_typed permissions_not_explicit).
  reflexivity.
Defined.

(** X12: for a well-typed checklist the message of a declared flag is
    reported exactly when that flag is present and set to [false]. *)
Theorem validateCompliance_well_typed_violation (checklist : value)
        (cat flag msg : string) :
  well_typed_checklist checklist = true →
  declared cat flag msg →
  ∃ r, validateCompliance checklist = Ok r ∧
       (msg ∈ violations r ↔ flag_is_false checklist cat flag).
Proof.
  intros Hwt Hd. eexists. split.
  { apply validateCompliance_readable. by eapply checklist_shape_readable. }
  cbn [valid violations].
  rewrite (elem_of_spec_violations_declared _ _ _ _ Hd).
  unfold violated, flag_is_false.
  destruct (checklist_shape_declared _ _ _ _ _ Hwt Hd) as [Hu|[[m Hsub] Hbool]].
  - rewrite Hu. cbn [truthy andb]. split; [done|]. by intros (m & ? & _).
  - rewrite Hsub in Hbool |- *. cbn [truthy andb prop] in *.
    destruct (m !! flag) as [[| |[]| |]|] eqn:Hf; cbn in Hbool |- *;
      try discriminate Hbool.
    + split; [done|]. intros (m' & [= <-] & Hm'). rewrite Hf in Hm'.
      discriminate Hm'.
    + split; [|done]. intros _. by exists m.
Qed.

Lemma validateCompliance_well_typed_violation_witness :
  ∃ r, validateCompliance permissions_not_explicit = Ok r ∧
       ("Permissions are not explicit" ∈ violations r ↔
        flag_is_false permissions_not_explicit "security" "explicitPermissions").
Proof.
  apply (validateCompliance_well_typed_violation permissions_not_explicit
           "security" "explicitPermissions" "Permissions are not explicit").
  - reflexivity.
  - unfold declared. apply (bool_decide_unpack _). vm_compute. exact I.
Defined.
